(** * The unversioned Kubernetes client: discovery, validation, timeouts

    A shallow embedding of [pkg/client/unversioned/client.go]: the
    [Client] facade and its accessors, the discovery operations
    ([ServerVersion], [ServerAPIVersions],
    [SupportedResourcesForGroupVersion], [SupportedResources]), the
    component validator ([ValidateComponents]) and the transport-error
    classifier ([IsTimeout]). *)

From Stdlib Require Import Ascii.
From stdpp Require Import gmap strings list.

Local Open Scope string_scope.

(** * Go errors *)

(** A Go [error] is an interface value.  [IsTimeout] observes three
    things of it: whether its dynamic type is [*url.Error], whether it
    satisfies [net.Error] (methods [Timeout] and [Temporary]), and the
    text [Error()] returns.  The constructors are these cases:
    [UrlError] is a [*url.Error] with its fields [Op], [URL] and [Err];
    [NetError] is a value of any other type that satisfies [net.Error],
    with what [Error()], [Timeout()] and [Temporary()] return;
    [OtherError] is any other error, with its text.  [*url.Error] is the
    type of the Go releases the file was built with (1.4 and 1.5): its
    only method is [Error], so it does not itself satisfy [net.Error],
    which is why the file looks inside it.  Its [Err] is taken to be
    non-nil, as [net/http] and [net/url] build it.  The nil error is
    [None] of [option error]. *)
Inductive error : Type :=
| UrlError (Op URL : string) (Err : error)
| NetError (msg : string) (timeout temporary : bool)
| OtherError (msg : string).

(** [err.Error()]; for [*url.Error] it is [Op + " " + URL + ": " + Err.Error()]. *)
Fixpoint Error (e : error) : string :=
  match e with
  | UrlError op u inner => op +:+ " " +:+ u +:+ ": " +:+ Error inner
  | NetError msg _ _ => msg
  | OtherError msg => msg
  end.

(** The type assertion [err.(net.Error)] followed by [.Timeout()]:
    [Some t] when the assertion succeeds, [t] being what [Timeout()]
    returns. *)
Definition as_net_Error (e : error) : option bool :=
  match e with
  | NetError _ t _ => Some t
  | _ => None
  end.

(** * Go strings *)

(** [strings.HasPrefix(s, prefix)]. *)
Fixpoint strings_HasPrefix (s prefix : string) {struct prefix} : bool :=
  match prefix, s with
  | EmptyString, _ => true
  | String _ _, EmptyString => false
  | String a prefix', String b s' =>
      if decide (a = b) then strings_HasPrefix s' prefix' else false
  end.

(** [strings.Contains(s, substr)]: [substr] occurs at some offset of [s]. *)
Fixpoint strings_Contains (s substr : string) : bool :=
  if strings_HasPrefix s substr then true
  else match s with
       | EmptyString => false
       | String _ s' => strings_Contains s' substr
       end.

(** [fmt.Errorf("got '%s': %v", string(body), err)] for a non-nil [err]:
    [%s] prints the body as it is, [%v] prints [err.Error()]. *)
Definition fmt_Errorf_got (body : string) (err : error) : error :=
  OtherError ("got '" +:+ body +:+ "': " +:+ Error err).

(** * The error classifier *)

Definition closed_connection : string := "use of closed network connection".

(** [IsTimeout], lines 222-239.  The type switch takes the [*url.Error]
    case first; when the inner error is not a [net.Error] that case ends
    without returning and control reaches the text test, applied to the
    outer error. *)
Definition IsTimeout (err : option error) : bool :=
  match err with
  | None => false
  | Some e =>
      let fallback := strings_Contains (Error e) closed_connection in
      match e with
      | UrlError _ _ inner =>
          match as_net_Error inner with
          | Some t => t
          | None => fallback
          end
      | NetError _ t _ => t
      | OtherError _ => fallback
      end
  end.

(** The structured timeout signal of an error, in the words of the
    specification: the predicate the error exposes directly, or, for a
    URL-level wrapper, the one exposed by the error nested one level
    inside it. *)
Inductive exposes_timeout : error → bool → Prop :=
| exposes_direct msg t tmp :
    exposes_timeout (NetError msg t tmp) t
| exposes_nested op u msg t tmp :
    exposes_timeout (UrlError op u (NetError msg t tmp)) t.

Definition no_timeout_signal (e : error) : Prop := ∀ t, ¬ exposes_timeout e t.

(** * What the file takes from elsewhere *)

(** [json.Unmarshal(body, &v)] for a freshly declared [v] of type [T]:
    the decoded value, or the parse failure.  The decoder is that of
    [encoding/json]; it is a parameter of the development. *)
Class Unmarshal (T : Type) := json_Unmarshal : string → T + error.
Global Hint Mode Unmarshal ! : typeclass_instances.

(** The request the file builds: [c.Get()] followed by one of the two
    path calls of the request builder, with the segments as the source
    passes them. *)
Inductive path_call : Type :=
| AbsPath (segments : list string)
| UnversionedPath (segments : list string).

Record Request : Type := { verb : string; path : path_call }.

(** The two ways the file executes a request: [.Do().Raw()] and [.DoRaw()]. *)
Inductive executor : Type := Do_Raw | DoRaw.

(** A Go pointer: [None] is [nil], [Some a] the address [a] of the heap. *)
Definition ptr : Type := option nat.

(** The types, the decoders and the functions declared outside the file:
    the API types, the transport executor behind a [*RESTClient], which
    answers a request with a body and an error (both may be set) and
    moves the server and the connection, the [World], to a next state,
    and the package-level [ServerAPIVersions(cfg)] that
    [SupportedResources] calls for the list of group-versions.  Both
    functions are taken to return. *)
Class Collaborators : Type := {
  World : Type;
  version_Info : Type;
  unversioned_APIVersions : Type;
  unversioned_APIResourceList : Type;
  api_ComponentStatus : Type;
  Config : Type;
  Info_Unmarshal :: Unmarshal version_Info;
  APIVersions_Unmarshal :: Unmarshal unversioned_APIVersions;
  APIResourceList_Unmarshal :: Unmarshal unversioned_APIResourceList;
  ComponentStatuses_Unmarshal :: Unmarshal (list api_ComponentStatus);
  transport : ptr → Request → executor → World → (string * option error) * World;
  helper_ServerAPIVersions : Config → World → (list string * option error) * World;
}.

(** * Heap, state and the monad of the methods *)

(** The struct types behind the sub-clients the accessors return. *)
Inductive Resource : Type :=
| replicationControllers | nodes | events | endpoints | pods
| podTemplates | services | limitRanges | resourceQuotas
| serviceAccounts | secrets | namespaces | persistentVolumes
| persistentVolumeClaims | componentStatuses.

(** What an address of the heap holds: a [Client] struct (lines 131-134,
    its two embedded pointers), a sub-client bound to a [*Client] and,
    when namespaced, to a namespace, or a value of a type declared
    elsewhere ([RESTClient], [ExtensionsClient]). *)
Inductive object : Type :=
| ClientStruct (RESTClient ExtensionsClient : ptr)
| SubClient (kind : Resource) (r : ptr) (ns : option string)
| Foreign.

(** One executed request: the [*RESTClient] it went through, the request
    and the executor. *)
Record call : Type := { via : ptr; request : Request; run : executor }.

Section Machine.
Context `{!Collaborators}.

(** [api.ComponentStatusList], of which the file sets [Items]; the other
    fields keep their zero values. *)
Record api_ComponentStatusList : Type := { Items : list api_ComponentStatus }.

(** [heap]: the allocated objects, an address being an index; [world]:
    the state behind the transport; [trace]: the requests executed so
    far, oldest first. *)
Record state : Type := { heap : list object; world : World; trace : list call }.

(** A method call returns a value and a next state, or panics (a nil
    or dangling pointer is dereferenced). *)
Inductive outcome (A : Type) : Type :=
| Return (a : A) (s : state)
| Panic.
Global Arguments Return {A} a s.
Global Arguments Panic {A}.

Definition M (A : Type) : Type := state → outcome A.

Global Instance M_ret : MRet M := λ A a s, Return a s.
Global Instance M_bind : MBind M := λ A B f m s,
  match m s with
  | Return a s' => f a s'
  | Panic => Panic
  end.

(** [*p] for a pointer to a [Client]. *)
Definition deref_Client (p : ptr) : M (ptr * ptr) := λ s,
  match p with
  | Some a =>
      match heap s !! a with
      | Some (ClientStruct rest ext) => Return (rest, ext) s
      | _ => Panic
      end
  | None => Panic
  end.

(** [&T{...}]: a new object at the next free address. *)
Definition alloc (o : object) : M ptr := λ s,
  Return (Some (length (heap s)))
         {| heap := heap s ++ [o]; world := world s; trace := trace s |}.

(** Executing a request through the [*RESTClient] [rest]. *)
Definition execute (rest : ptr) (req : Request) (how : executor)
  : M (string * option error) := λ s,
  let '(answer, w) := transport rest req how (world s) in
  Return answer
         {| heap := heap s; world := w;
            trace := trace s ++ [{| via := rest; request := req; run := how |}] |}.

(** A call of a function that only talks to the server. *)
Definition external {A : Type} (f : World → A * World) : M A := λ s,
  let '(a, w) := f (world s) in
  Return a {| heap := heap s; world := w; trace := trace s |}.

(** [c.Get()] on a [*Client] is the promoted method of the embedded
    [*RESTClient], so [c] is dereferenced; the verb is [GET].  The
    chain [c.Get().<path call>.<executor>] then executes the request
    through that [*RESTClient]. *)
Definition Get (c : ptr) (p : path_call) (how : executor)
  : M (string * option error) :=
  '(rest, _) ← deref_Client c;
  execute rest {| verb := "GET"; path := p |} how.
End Machine.

(** * The facade and its accessors *)

Section Facade.
Context `{!Collaborators}.

(** Modelled from the spec: the constructors [newPods],
    [newServices], ... of the namespaced sub-clients are declared with
    the sub-clients, outside the file.  "Given a namespace, it returns
    a new sub-client value bound to the facade's transport and that
    namespace": a new object that holds the [*Client] and the
    namespace. *)
Definition newNamespaced (kind : Resource) (c : ptr) (namespace : string) : M ptr :=
  alloc (SubClient kind c (Some namespace)).

(** Modelled from the spec: the constructors [newNodes],
    [newNamespaces], ... of the cluster-scoped sub-clients, declared
    outside the file: a new object that holds the [*Client]. *)
Definition newClusterScoped (kind : Resource) (c : ptr) : M ptr :=
  alloc (SubClient kind c None).

(** Modelled from the spec: [newReplicationControllers], absent from the file. *)
Definition newReplicationControllers := newNamespaced replicationControllers.
(** Modelled from the spec: [newNodes], absent from the file. *)
Definition newNodes := newClusterScoped nodes.
(** Modelled from the spec: [newEvents], absent from the file. *)
Definition newEvents := newNamespaced events.
(** Modelled from the spec: [newEndpoints], absent from the file. *)
Definition newEndpoints := newNamespaced endpoints.
(** Modelled from the spec: [newPods], absent from the file. *)
Definition newPods := newNamespaced pods.
(** Modelled from the spec: [newPodTemplates], absent from the file. *)
Definition newPodTemplates := newNamespaced podTemplates.
(** Modelled from the spec: [newServices], absent from the file. *)
Definition newServices := newNamespaced services.
(** Modelled from the spec: [newLimitRanges], absent from the file. *)
Definition newLimitRanges := newNamespaced limitRanges.
(** Modelled from the spec: [newResourceQuotas], absent from the file. *)
Definition newResourceQuotas := newNamespaced resourceQuotas.
(** Modelled from the spec: [newServiceAccounts], absent from the file. *)
Definition newServiceAccounts := newNamespaced serviceAccounts.
(** Modelled from the spec: [newSecrets], absent from the file. *)
Definition newSecrets := newNamespaced secrets.
(** Modelled from the spec: [newNamespaces], absent from the file. *)
Definition newNamespaces := newClusterScoped namespaces.
(** Modelled from the spec: [newPersistentVolumes], absent from the file. *)
Definition newPersistentVolumes := newClusterScoped persistentVolumes.
(** Modelled from the spec: [newPersistentVolumeClaims], absent from the file. *)
Definition newPersistentVolumeClaims := newNamespaced persistentVolumeClaims.
(** Modelled from the spec: [newComponentStatuses], absent from the file. *)
Definition newComponentStatuses := newClusterScoped componentStatuses.

(** The accessors, lines 54-111; the receiver [c] is a [*Client]. *)
Definition ReplicationControllers (c : ptr) (namespace : string) : M ptr :=
  newReplicationControllers c namespace.
Definition Nodes (c : ptr) : M ptr := newNodes c.
Definition Events (c : ptr) (namespace : string) : M ptr := newEvents c namespace.
Definition Endpoints (c : ptr) (namespace : string) : M ptr := newEndpoints c namespace.
Definition Pods (c : ptr) (namespace : string) : M ptr := newPods c namespace.
Definition PodTemplates (c : ptr) (namespace : string) : M ptr :=
  newPodTemplates c namespace.
Definition Services (c : ptr) (namespace : string) : M ptr := newServices c namespace.
Definition LimitRanges (c : ptr) (namespace : string) : M ptr :=
  newLimitRanges c namespace.
Definition ResourceQuotas (c : ptr) (namespace : string) : M ptr :=
  newResourceQuotas c namespace.
Definition ServiceAccounts (c : ptr) (namespace : string) : M ptr :=
  newServiceAccounts c namespace.
Definition Secrets (c : ptr) (namespace : string) : M ptr := newSecrets c namespace.
Definition Namespaces (c : ptr) : M ptr := newNamespaces c.
Definition PersistentVolumes (c : ptr) : M ptr := newPersistentVolumes c.
Definition PersistentVolumeClaims (c : ptr) (namespace : string) : M ptr :=
  newPersistentVolumeClaims c namespace.
Definition ComponentStatuses (c : ptr) : M ptr := newComponentStatuses c.

(** [Extensions], lines 241-243: the field [c.ExtensionsClient]. *)
Definition Extensions (c : ptr) : M ptr :=
  '(_, ext) ← deref_Client c;
  mret ext.

(** An accessor of lines 54-111 with its argument, to speak of all of
    them at once. *)
Inductive accessor : Type :=
| ReplicationControllers_ (namespace : string)
| Nodes_
| Events_ (namespace : string)
| Endpoints_ (namespace : string)
| Pods_ (namespace : string)
| PodTemplates_ (namespace : string)
| Services_ (namespace : string)
| LimitRanges_ (namespace : string)
| ResourceQuotas_ (namespace : string)
| ServiceAccounts_ (namespace : string)
| Secrets_ (namespace : string)
| Namespaces_
| PersistentVolumes_
| PersistentVolumeClaims_ (namespace : string)
| ComponentStatuses_.

Definition call_accessor (c : ptr) (a : accessor) : M ptr :=
  match a with
  | ReplicationControllers_ ns => ReplicationControllers c ns
  | Nodes_ => Nodes c
  | Events_ ns => Events c ns
  | Endpoints_ ns => Endpoints c ns
  | Pods_ ns => Pods c ns
  | PodTemplates_ ns => PodTemplates c ns
  | Services_ ns => Services c ns
  | LimitRanges_ ns => LimitRanges c ns
  | ResourceQuotas_ ns => ResourceQuotas c ns
  | ServiceAccounts_ ns => ServiceAccounts c ns
  | Secrets_ ns => Secrets c ns
  | Namespaces_ => Namespaces c
  | PersistentVolumes_ => PersistentVolumes c
  | PersistentVolumeClaims_ ns => PersistentVolumeClaims c ns
  | ComponentStatuses_ => ComponentStatuses c
  end.

(** The [*Client] a sub-client is bound to. *)
Definition bound_Client (o : object) : option ptr :=
  match o with
  | SubClient _ r _ => Some r
  | _ => None
  end.

(** The transport of a [*Client]: its embedded [*RESTClient], when the
    pointer leads to a [Client]. *)
Definition Client_transport (h : list object) (c : ptr) : option ptr :=
  match c with
  | Some a =>
      match h !! a with
      | Some (ClientStruct rest _) => Some rest
      | _ => None
      end
  | None => None
  end.

(** The transport a sub-client is bound to: that of its [*Client]. *)
Definition transport_of (h : list object) (o : object) : option ptr :=
  match bound_Client o with
  | Some c => Client_transport h c
  | None => None
  end.
End Facade.

(** * Discovery and validation *)

Section Discovery.
Context `{!Collaborators}.

(** [ServerVersion], lines 137-148. *)
Definition ServerVersion (c : ptr) : M (option version_Info * option error) :=
  '(body, err) ← Get c (AbsPath ["/version"]) Do_Raw;
  match err with
  | Some e => mret (None, Some e)
  | None =>
      match json_Unmarshal body with
      | inr e => mret (None, Some (fmt_Errorf_got body e))
      | inl info => mret (Some info, None)
      end
  end.

(** [SupportedResourcesForGroupVersion], lines 151-167. *)
Definition SupportedResourcesForGroupVersion (c : ptr) (groupVersion : string)
  : M (option unversioned_APIResourceList * option error) :=
  let prefix := if decide (groupVersion = "v1") then "/api" else "/apis" in
  '(body, err) ← Get c (AbsPath [prefix; groupVersion]) Do_Raw;
  match err with
  | Some e => mret (None, Some e)
  | None =>
      match json_Unmarshal body with
      | inr e => mret (None, Some e)
      | inl resources => mret (Some resources, None)
      end
  end.

(** The part of the Go interface [Interface] that [SupportedResources]
    calls on its argument [c]: the method of [ResourcesInterface].  Any
    implementation may stand behind it, a test double as well as a
    [*Client]; it returns a pointer and an error, in any combination, or
    panics (as every call on a nil interface does). *)
Record Interface : Type := {
  Interface_SupportedResourcesForGroupVersion :
    string → M (option unversioned_APIResourceList * option error)
}.

(** A [*Client] as an [Interface]. *)
Definition Client_Interface (c : ptr) : Interface :=
  {| Interface_SupportedResourcesForGroupVersion := SupportedResourcesForGroupVersion c |}.

(** The loop of [SupportedResources], lines 176-182, over what is left
    of [apis], with the map [result] built so far. *)
Fixpoint SupportedResources_range (c : Interface) (apis : list string)
    (result : gmap string (option unversioned_APIResourceList))
  : M (option (gmap string (option unversioned_APIResourceList)) * option error) :=
  match apis with
  | [] => mret (Some result, None)
  | groupVersion :: apis' =>
      '(resources, err) ← Interface_SupportedResourcesForGroupVersion c groupVersion;
      match err with
      | Some e => mret (None, Some e)
      | None => SupportedResources_range c apis' (<[groupVersion := resources]> result)
      end
  end.

(** [SupportedResources], lines 170-184.  The map holds pointers, which
    may be nil: its values are options. *)
Definition SupportedResources (c : Interface) (cfg : Config)
  : M (option (gmap string (option unversioned_APIResourceList)) * option error) :=
  '(apis, err) ← external (helper_ServerAPIVersions cfg);
  match err with
  | Some e => mret (None, Some e)
  | None => SupportedResources_range c apis ∅
  end.

(** [ServerAPIVersions], the method, lines 187-198. *)
Definition ServerAPIVersions (c : ptr) : M (option unversioned_APIVersions * option error) :=
  '(body, err) ← Get c (UnversionedPath [EmptyString]) Do_Raw;
  match err with
  | Some e => mret (None, Some e)
  | None =>
      match json_Unmarshal body with
      | inr e => mret (None, Some (fmt_Errorf_got body e))
      | inl v => mret (Some v, None)
      end
  end.

(** [ValidateComponents], lines 206-217. *)
Definition ValidateComponents (c : ptr) : M (option api_ComponentStatusList * option error) :=
  '(body, err) ← Get c (AbsPath ["/validate"]) DoRaw;
  match err with
  | Some e => mret (None, Some e)
  | None =>
      match json_Unmarshal body with
      | inr e => mret (None, Some (fmt_Errorf_got body e))
      | inl statuses => mret (Some {| Items := statuses |}, None)
      end
  end.

(** The entries a caller reads from a returned map; reading the nil map
    finds nothing. *)
Definition entries (m : option (gmap string (option unversioned_APIResourceList)))
  : gmap string (option unversioned_APIResourceList) :=
  default ∅ m.

(** The fetches for the group-versions [gvs], one after the other, each
    run to its end whatever the one before returned, with all their
    results. *)
Fixpoint fetch_each (c : Interface) (gvs : list string)
  : M (list (option unversioned_APIResourceList * option error)) :=
  match gvs with
  | [] => mret []
  | g :: gvs' =>
      o ← Interface_SupportedResourcesForGroupVersion c g;
      os ← fetch_each c gvs';
      mret (o :: os)
  end.
End Discovery.

(** * A test server *)

(** A concrete instance of the collaborators, in the manner of the fake
    clients of the repository's tests: a server that answers by path,
    and decoders that know the bodies this server sends. *)
Module Sample.

(** JSON text written with ['] for the double quote. *)
Fixpoint json_text (s : string) : string :=
  match s with
  | EmptyString => EmptyString
  | String a s' =>
      String (if decide (a = "'"%char) then Ascii.ascii_of_nat 34 else a) (json_text s')
  end.

Record Info : Type := { Major : string; Minor : string }.
Record APIResourceList : Type := { GroupVersion : string; APIResources : list string }.
Record ComponentStatus : Type := { Name : string; Healthy : bool }.

Definition version_body : string := json_text "{'major':'1','minor':'1'}".
Definition root_body : string := json_text "{'versions':['v1']}".
Definition v1_body : string :=
  json_text "{'groupVersion':'v1','resources':[{'name':'pods'},{'name':'services'}]}".
Definition extensions_body : string :=
  json_text "{'groupVersion':'extensions/v1beta1','resources':[{'name':'jobs'}]}".
Definition validate_body : string :=
  json_text "[{'name':'etcd-0','healthy':true},{'name':'scheduler','healthy':false}]".
Definition garbage_body : string := "not json".

Definition v1_resources : APIResourceList :=
  {| GroupVersion := "v1"; APIResources := ["pods"; "services"] |}.
Definition extensions_resources : APIResourceList :=
  {| GroupVersion := "extensions/v1beta1"; APIResources := ["jobs"] |}.
Definition etcd : ComponentStatus := {| Name := "etcd-0"; Healthy := true |}.
Definition scheduler : ComponentStatus := {| Name := "scheduler"; Healthy := false |}.

(** What [encoding/json] reports for the body [not json]. *)
Definition syntax_error : error :=
  OtherError "invalid character 'o' in literal null (expecting 'u')".

Definition not_found : error :=
  OtherError "the server could not find the requested resource".

(** A decoder given by the bodies it knows; any other body is taken for
    a syntax error. *)
Fixpoint decode_table {T : Type} (table : list (string * T)) (body : string) : T + error :=
  match table with
  | [] => inr syntax_error
  | (b, v) :: table' => if decide (b = body) then inl v else decode_table table' body
  end.

(** The server: each known path has its answer, [/apis/batch/v1] answers
    with a body that is not JSON, [/apis/ext/v1] fails, and the world
    counts the requests served. *)
Definition serve (rest : ptr) (req : Request) (how : executor) (w : nat)
  : (string * option error) * nat :=
  (match path req with
   | AbsPath ["/version"] => (version_body, None)
   | AbsPath ["/api"; "v1"] => (v1_body, None)
   | AbsPath ["/apis"; "extensions/v1beta1"] => (extensions_body, None)
   | AbsPath ["/apis"; "batch/v1"] => (garbage_body, None)
   | AbsPath ["/validate"] => (validate_body, None)
   | UnversionedPath [EmptyString] => (root_body, None)
   | _ => (EmptyString, Some not_found)
   end, S w).

Global Instance collaborators : Collaborators := {|
  World := nat;
  version_Info := Info;
  unversioned_APIVersions := list string;
  unversioned_APIResourceList := APIResourceList;
  api_ComponentStatus := ComponentStatus;
  Config := list string;
  Info_Unmarshal := decode_table [(version_body, {| Major := "1"; Minor := "1" |})];
  APIVersions_Unmarshal := decode_table [(root_body, ["v1"])];
  APIResourceList_Unmarshal :=
    decode_table [(v1_body, v1_resources); (extensions_body, extensions_resources)];
  ComponentStatuses_Unmarshal := decode_table [(validate_body, [etcd; scheduler])];
  transport := serve;
  helper_ServerAPIVersions := λ cfg w, ((cfg, None), S w);
|}.

(** A heap with a [RESTClient] at 0, an [ExtensionsClient] at 1 and the
    [Client] that embeds them at 2. *)
Definition start : state :=
  {| heap := [Foreign; Foreign; ClientStruct (Some 0) (Some 1)]; world := 0; trace := [] |}.

Definition client : ptr := Some 2.
End Sample.

(** * The operations side by side *)

(** The four methods of [*Client] that talk to the server, lines
    137-217. *)
Inductive operation : Type :=
| ServerVersion_
| ServerAPIVersions_
| SupportedResourcesForGroupVersion_ (groupVersion : string)
| ValidateComponents_.

(** The request each of them builds and the executor it ends with,
    lines 138, 158, 188 and 207. *)
Definition operation_request (op : operation) : Request * executor :=
  match op with
  | ServerVersion_ =>
      ({| verb := "GET"; path := AbsPath ["/version"] |}, Do_Raw)
  | ServerAPIVersions_ =>
      ({| verb := "GET"; path := UnversionedPath [EmptyString] |}, Do_Raw)
  | SupportedResourcesForGroupVersion_ g =>
      ({| verb := "GET";
          path := AbsPath [if decide (g = "v1") then "/api" else "/apis"; g] |}, Do_Raw)
  | ValidateComponents_ =>
      ({| verb := "GET"; path := AbsPath ["/validate"] |}, DoRaw)
  end.

(** The request of an operation as it shows in the trace. *)
Definition operation_call (rest : ptr) (op : operation) : call :=
  {| via := rest; request := (operation_request op).1; run := (operation_request op).2 |}.

(** Whether a returned pointer is non-nil. *)
Definition non_nil {A : Type} (p : option A) : bool :=
  match p with
  | Some _ => true
  | None => false
  end.

Section Operations.
Context `{!Collaborators}.

(** What [json.Unmarshal] returns for [body] into the type the
    operation decodes: [None], the nil error, when the body decodes. *)
Definition operation_decode (op : operation) (body : string) : option error :=
  match op with
  | ServerVersion_ =>
      match json_Unmarshal (T := version_Info) body with
      | inl _ => None
      | inr e => Some e
      end
  | ServerAPIVersions_ =>
      match json_Unmarshal (T := unversioned_APIVersions) body with
      | inl _ => None
      | inr e => Some e
      end
  | SupportedResourcesForGroupVersion_ _ =>
      match json_Unmarshal (T := unversioned_APIResourceList) body with
      | inl _ => None
      | inr e => Some e
      end
  | ValidateComponents_ =>
      match json_Unmarshal (T := list api_ComponentStatus) body with
      | inl _ => None
      | inr e => Some e
      end
  end.

(** An operation called for its outcome only: whether the value it
    returns is non-nil, and the error it returns. *)
Definition run_operation (op : operation) (c : ptr) : M (bool * option error) :=
  match op with
  | ServerVersion_ =>
      '(v, err) ← ServerVersion c; mret (non_nil v, err)
  | ServerAPIVersions_ =>
      '(v, err) ← ServerAPIVersions c; mret (non_nil v, err)
  | SupportedResourcesForGroupVersion_ g =>
      '(v, err) ← SupportedResourcesForGroupVersion c g; mret (non_nil v, err)
  | ValidateComponents_ =>
      '(v, err) ← ValidateComponents c; mret (non_nil v, err)
  end.
End Operations.

(** * A scripted transport *)

(** A second instance of the collaborators: the transport answers each
    request with the next answer of a script, whatever the request, and
    the listing returns what the configuration holds, a list and an
    error.  The decoders are those of the test server. *)
Module Canned.

Definition replay (rest : ptr) (req : Request) (how : executor)
    (script : list (string * option error))
  : (string * option error) * list (string * option error) :=
  match script with
  | [] => ((EmptyString, Some Sample.not_found), [])
  | answer :: script' => (answer, script')
  end.

Definition collaborators : Collaborators := {|
  World := list (string * option error);
  version_Info := Sample.Info;
  unversioned_APIVersions := list string;
  unversioned_APIResourceList := Sample.APIResourceList;
  api_ComponentStatus := Sample.ComponentStatus;
  Config := list string * option error;
  Info_Unmarshal :=
    Sample.decode_table [(Sample.version_body, {| Sample.Major := "1"; Sample.Minor := "1" |})];
  APIVersions_Unmarshal := Sample.decode_table [(Sample.root_body, ["v1"])];
  APIResourceList_Unmarshal :=
    Sample.decode_table [(Sample.v1_body, Sample.v1_resources);
                         (Sample.extensions_body, Sample.extensions_resources)];
  ComponentStatuses_Unmarshal :=
    Sample.decode_table [(Sample.validate_body, [Sample.etcd; Sample.scheduler])];
  transport := replay;
  helper_ServerAPIVersions := λ cfg script, (cfg, script);
|}.

(** A dial that timed out, as [net/http] reports it. *)
Definition dial_timeout : error :=
  UrlError "Get" "http://localhost:8080/version" (NetError "dial tcp: i/o timeout" true true).

(** The heap of the test server, with a script for the transport. *)
Definition start (script : list (string * option error)) : @state collaborators :=
  @Build_state collaborators [Foreign; Foreign; ClientStruct (Some 0) (Some 1)] script [].

Definition client : ptr := Some 2.
End Canned.

(** * Properties of the string functions *)

Lemma strings_HasPrefix_spec (s prefix : string) :
  strings_HasPrefix s prefix = true ↔ ∃ rest, s = prefix +:+ rest.
Proof.
  revert s. induction prefix as [|a prefix IH]; intros s; simpl.
  - split; [intros _; by exists s | done].
  - destruct s as [|b s]; simpl.
    + split; [done | intros [rest Hrest]; discriminate].
    + destruct (decide (a = b)) as [->|Hne].
      * rewrite IH. split; intros [rest Hrest]; exists rest.
        -- by subst.
        -- by injection Hrest.
      * split; [done | intros [rest Hrest]; by injection Hrest].
Qed.

Lemma strings_Contains_spec (s substr : string) :
  strings_Contains s substr = true ↔ ∃ before after, s = before +:+ substr +:+ after.
Proof.
  induction s as [|b s IH]; simpl.
  - destruct (strings_HasPrefix EmptyString substr) eqn:Hp.
    + split; [intros _ | done].
      apply strings_HasPrefix_spec in Hp as [rest Hrest]. by exists EmptyString, rest.
    + split; [done | intros [before [after Heq]]].
      destruct before; [|discriminate]. simpl in Heq.
      assert (strings_HasPrefix EmptyString substr = true) as Hp'
        by (apply strings_HasPrefix_spec; eauto).
      congruence.
  - destruct (strings_HasPrefix (String b s) substr) eqn:Hp.
    + split; [intros _ | done].
      apply strings_HasPrefix_spec in Hp as [rest Hrest]. by exists EmptyString, rest.
    + rewrite IH. split.
      * intros [before [after Heq]]. exists (String b before), after. by subst.
      * intros [before [after Heq]]. destruct before as [|b' before]; simpl in Heq.
        -- assert (strings_HasPrefix (String b s) substr = true) as Hp'
             by (apply strings_HasPrefix_spec; eauto).
           congruence.
        -- injection Heq as _ Heq. eauto.
Qed.

(** * The error classifier *)

Example IsTimeout_wrapped_closed :
  IsTimeout (Some (UrlError "Get" "http://localhost/api"
                     (OtherError "read tcp: use of closed network connection"))) = true.
Proof. reflexivity. Qed.

Example IsTimeout_net_closed :
  IsTimeout (Some (NetError "use of closed network connection" false false)) = false.
Proof. reflexivity. Qed.

Example IsTimeout_plain :
  IsTimeout (Some (OtherError "connection refused")) = false.
Proof. reflexivity. Qed.

Lemma no_timeout_signal_cases (e : error) :
  no_timeout_signal e →
  (∃ msg, e = OtherError msg) ∨
  (∃ op u inner, e = UrlError op u inner ∧ as_net_Error inner = None).
Proof.
  intros Hno. destruct e as [op u inner|msg t tmp|msg].
  - right. exists op, u, inner. split; [done|].
    destruct inner as [| msg t tmp |]; try done.
    exfalso. apply (Hno t). constructor.
  - exfalso. apply (Hno t). constructor.
  - left. by exists msg.
Qed.

(** C5: an error that exposes a structured timeout predicate, directly
    or nested one level inside a URL-level wrapper, is classified by the
    value of that predicate. *)
Theorem IsTimeout_structured (e : error) (t : bool) :
  exposes_timeout e t → IsTimeout (Some e) = t.
Proof. intros Hexp. by destruct Hexp. Qed.

Lemma IsTimeout_structured_witness :
  IsTimeout (Some (UrlError "Get" "http://localhost/version"
                     (NetError "i/o timeout" true true))) = true.
Proof. apply IsTimeout_structured. apply exposes_nested. Defined.

(** C6: a non-nil error with no structured timeout signal is a timeout
    exactly when its message contains the closed-connection text, and is
    not a timeout otherwise. *)
Theorem IsTimeout_fallback (e : error) :
  no_timeout_signal e →
  (IsTimeout (Some e) = true ↔
     ∃ before after, Error e = before +:+ "use of closed network connection" +:+ after)
  ∧ (IsTimeout (Some e) = false ↔
     ¬ ∃ before after, Error e = before +:+ "use of closed network connection" +:+ after).
Proof.
  intros Hno.
  assert (IsTimeout (Some e) = strings_Contains (Error e) closed_connection) as ->.
  { destruct (no_timeout_signal_cases e Hno) as [[msg ->]|(op & u & inner & -> & Hin)].
    - done.
    - unfold IsTimeout. by rewrite Hin. }
  rewrite <- (strings_Contains_spec (Error e) closed_connection).
  split; [done|]. by destruct (strings_Contains _ _).
Qed.

Lemma IsTimeout_fallback_witness :
  IsTimeout (Some (OtherError "write: use of closed network connection")) = true.
Proof.
  apply (IsTimeout_fallback (OtherError "write: use of closed network connection")).
  - intros t Hexp. inversion Hexp.
  - by exists "write: ", EmptyString.
Defined.

(** C7: the nil error is not a timeout. *)
Theorem IsTimeout_nil : IsTimeout None = false.
Proof. reflexivity. Qed.

(** * The facade *)

Section FacadeProperties.
Context `{!Collaborators}.

Lemma deref_Client_run (a : nat) (rest ext : ptr) (s : state) :
  heap s !! a = Some (ClientStruct rest ext) →
  deref_Client (Some a) s = Return (rest, ext) s.
Proof. intros Hc. unfold deref_Client. by rewrite Hc. Qed.

(** Every accessor is one allocation of a sub-client bound to the
    receiver. *)
Lemma call_accessor_alloc (c : ptr) (a : accessor) :
  ∃ kind ns, call_accessor c a = alloc (SubClient kind c ns).
Proof. destruct a; eexists _, _; reflexivity. Qed.

(** C9: calling an accessor twice returns, without panic, two distinct
    new sub-clients with the same contents, bound to the receiver and so
    to its transport; the objects allocated before are unchanged, and
    the world and the trace of requests are those of the start. *)
Theorem accessors_idempotent (c : ptr) (a : accessor) (s : state) :
  ∃ (p1 p2 : nat) (o : object) (s1 s2 : state),
    call_accessor c a s = Return (Some p1) s1 ∧
    call_accessor c a s1 = Return (Some p2) s2 ∧
    p1 ≠ p2 ∧
    heap s !! p1 = None ∧ heap s1 !! p2 = None ∧
    heap s2 !! p1 = Some o ∧ heap s2 !! p2 = Some o ∧
    bound_Client o = Some c ∧
    transport_of (heap s2) o = Client_transport (heap s) c ∧
    heap s `prefix_of` heap s1 ∧ heap s `prefix_of` heap s2 ∧
    world s1 = world s ∧ world s2 = world s ∧
    trace s1 = trace s ∧ trace s2 = trace s.
Proof.
  destruct (call_accessor_alloc c a) as (kind & ns & ->).
  set (o := SubClient kind c ns).
  set (s1 := {| heap := heap s ++ [o]; world := world s; trace := trace s |}).
  set (s2 := {| heap := (heap s ++ [o]) ++ [o]; world := world s; trace := trace s |}).
  exists (length (heap s)), (S (length (heap s))), o, s1, s2.
  assert (length (heap s ++ [o]) = S (length (heap s))) as Hlen
    by (rewrite length_app; simpl; lia).
  split; [reflexivity|].
  split; [unfold alloc; simpl; by rewrite Hlen|].
  split; [lia|].
  split; [by apply lookup_ge_None_2|].
  split; [apply lookup_ge_None_2; simpl; lia|].
  split.
  { simpl. rewrite lookup_app_l by lia. by rewrite lookup_app_r, Nat.sub_diag. }
  split.
  { simpl. rewrite lookup_app_r by lia. by rewrite Hlen, Nat.sub_diag. }
  split; [done|].
  split.
  { unfold transport_of, Client_transport; simpl. destruct c as [n|]; [|done].
    destruct (heap s !! n) as [o'|] eqn:Hn.
    - by rewrite <- app_assoc, (lookup_app_l_Some _ _ _ _ Hn).
    - apply lookup_ge_None_1 in Hn. rewrite <- app_assoc.
      rewrite lookup_app_r by done.
      destruct (n - length (heap s)) as [|[|k]]; done. }
  split; [by apply prefix_app_r|].
  split; [simpl; rewrite <- app_assoc; by apply prefix_app_r|done].
Qed.

(** C10: [Extensions] returns the pointer stored in the [Client], the
    same at every call, and leaves the whole state, heap included, as it
    was: nothing is allocated and the [Client] is unchanged. *)
Theorem Extensions_stored (a : nat) (rest ext : ptr) (s : state) :
  heap s !! a = Some (ClientStruct rest ext) →
  Extensions (Some a) s = Return ext s ∧
  (p ← Extensions (Some a); q ← Extensions (Some a); mret (p, q)) s
    = Return (ext, ext) s.
Proof.
  intros Hc. unfold Extensions, mbind, M_bind, mret, M_ret.
  by rewrite !(deref_Client_run a rest ext s Hc).
Qed.

End FacadeProperties.

Lemma Extensions_stored_witness :
  Extensions Sample.client Sample.start = Return (Some 1) Sample.start ∧
  (p ← Extensions Sample.client; q ← Extensions Sample.client; mret (p, q)) Sample.start
    = Return (Some 1, Some 1) Sample.start.
Proof. apply (Extensions_stored 2 (Some 0) (Some 1) Sample.start). reflexivity. Defined.

Example Pods_twice :
  (p ← Pods Sample.client "default"; q ← Pods Sample.client "default"; mret (p, q))
    Sample.start
  = Return (Some 3, Some 4)
      {| heap := [Foreign; Foreign; ClientStruct (Some 0) (Some 1);
                  SubClient pods (Some 2) (Some "default");
                  SubClient pods (Some 2) (Some "default")];
         world := 0; trace := [] |}.
Proof. reflexivity. Qed.

(** * Discovery and validation *)

Section DiscoveryProperties.
Context `{!Collaborators}.

(** A request through a [*Client] that leads to a [Client] returns what
    the transport answers and adds the request to the trace. *)
Lemma Get_run (a : nat) (rest ext : ptr) (p : path_call) (how : executor) (s : state) :
  heap s !! a = Some (ClientStruct rest ext) →
  Get (Some a) p how s =
    Return (transport rest {| verb := "GET"; path := p |} how (world s)).1
      {| heap := heap s;
         world := (transport rest {| verb := "GET"; path := p |} how (world s)).2;
         trace := trace s ++ [{| via := rest; request := {| verb := "GET"; path := p |};
                                 run := how |}] |}.
Proof.
  intros Hc. unfold Get, mbind, M_bind. rewrite (deref_Client_run a rest ext s Hc).
  unfold execute. by destruct (transport _ _ _ _).
Qed.

(** The error [fmt.Errorf("got '%s': %v", ...)] builds has a message
    that holds the body and the message of the parse failure. *)
Lemma fmt_Errorf_got_wraps (body : string) (e : error) :
  Error (fmt_Errorf_got body e) = "got '" +:+ body +:+ "': " +:+ Error e.
Proof. reflexivity. Qed.

(** The three operations that report a body that does not decode with
    the body in the message. *)
Lemma ServerVersion_decode_error (a : nat) (rest ext : ptr) (s : state)
    (body : string) (w : World) (e : error) :
  heap s !! a = Some (ClientStruct rest ext) →
  transport rest {| verb := "GET"; path := AbsPath ["/version"] |} Do_Raw (world s)
    = ((body, None), w) →
  json_Unmarshal (T := version_Info) body = inr e →
  ∃ s', ServerVersion (Some a) s = Return (None, Some (fmt_Errorf_got body e)) s'.
Proof.
  intros Hc Ht Hd. unfold ServerVersion, mbind, M_bind.
  rewrite (Get_run a rest ext _ _ s Hc), Ht; simpl. rewrite Hd. by eexists.
Qed.

Lemma ServerAPIVersions_decode_error (a : nat) (rest ext : ptr) (s : state)
    (body : string) (w : World) (e : error) :
  heap s !! a = Some (ClientStruct rest ext) →
  transport rest {| verb := "GET"; path := UnversionedPath [EmptyString] |} Do_Raw (world s)
    = ((body, None), w) →
  json_Unmarshal (T := unversioned_APIVersions) body = inr e →
  ∃ s', ServerAPIVersions (Some a) s = Return (None, Some (fmt_Errorf_got body e)) s'.
Proof.
  intros Hc Ht Hd. unfold ServerAPIVersions, mbind, M_bind.
  rewrite (Get_run a rest ext _ _ s Hc), Ht; simpl. rewrite Hd. by eexists.
Qed.

Lemma ValidateComponents_decode_error (a : nat) (rest ext : ptr) (s : state)
    (body : string) (w : World) (e : error) :
  heap s !! a = Some (ClientStruct rest ext) →
  transport rest {| verb := "GET"; path := AbsPath ["/validate"] |} DoRaw (world s)
    = ((body, None), w) →
  json_Unmarshal (T := list api_ComponentStatus) body = inr e →
  ∃ s', ValidateComponents (Some a) s = Return (None, Some (fmt_Errorf_got body e)) s'.
Proof.
  intros Hc Ht Hd. unfold ValidateComponents, mbind, M_bind.
  rewrite (Get_run a rest ext _ _ s Hc), Ht; simpl. rewrite Hd. by eexists.
Qed.

(** [SupportedResourcesForGroupVersion] returns the parse failure as it
    is: the body is not in the error. *)
Lemma SupportedResourcesForGroupVersion_decode_error (a : nat) (rest ext : ptr)
    (s : state) (g body : string) (w : World) (e : error) :
  heap s !! a = Some (ClientStruct rest ext) →
  transport rest
    {| verb := "GET";
       path := AbsPath [if decide (g = "v1") then "/api" else "/apis"; g] |}
    Do_Raw (world s) = ((body, None), w) →
  json_Unmarshal (T := unversioned_APIResourceList) body = inr e →
  ∃ s', SupportedResourcesForGroupVersion (Some a) g s = Return (None, Some e) s'.
Proof.
  intros Hc Ht Hd. unfold SupportedResourcesForGroupVersion, mbind, M_bind.
  rewrite (Get_run a rest ext _ _ s Hc), Ht; simpl. rewrite Hd. by eexists.
Qed.

(** C3: through a [*Client] that leads to a [Client],
    [SupportedResourcesForGroupVersion g] returns after exactly one
    request, a GET with the path segments [prefix] and [g], where
    [prefix] is ["/api"] when [g] is ["v1"] and ["/apis"] for every
    other string. *)
Theorem SupportedResourcesForGroupVersion_path (a : nat) (rest ext : ptr)
    (g : string) (s : state) :
  heap s !! a = Some (ClientStruct rest ext) →
  ∃ r s' prefix,
    SupportedResourcesForGroupVersion (Some a) g s = Return r s' ∧
    trace s' = (trace s ++
      [{| via := rest; request := {| verb := "GET"; path := AbsPath [prefix; g] |};
          run := Do_Raw |}])%list ∧
    (g = "v1" → prefix = "/api") ∧
    (g ≠ "v1" → prefix = "/apis") ∧
    (prefix = "/api" ↔ g = "v1").
Proof.
  intros Hc. unfold SupportedResourcesForGroupVersion, mbind, M_bind.
  rewrite (Get_run a rest ext _ _ s Hc).
  destruct (transport _ _ _ _) as [[body [e|]] w] eqn:Ht; simpl.
  - eexists _, _, _. split; [reflexivity|]. split; [reflexivity|].
    case_decide; naive_solver.
  - destruct (json_Unmarshal body) as [resources|e];
      (eexists _, _, _; split; [reflexivity|]; split; [reflexivity|]);
      case_decide; naive_solver.
Qed.

(** C8: when the validation endpoint answers with a body that decodes
    as an array of component-status records, [ValidateComponents]
    returns a list whose [Items] are those records in that order, and no
    error. *)
Theorem ValidateComponents_items (a : nat) (rest ext : ptr) (s : state)
    (body : string) (w : World) (statuses : list api_ComponentStatus) :
  heap s !! a = Some (ClientStruct rest ext) →
  transport rest {| verb := "GET"; path := AbsPath ["/validate"] |} DoRaw (world s)
    = ((body, None), w) →
  json_Unmarshal body = inl statuses →
  ∃ l s', ValidateComponents (Some a) s = Return (Some l, None) s' ∧
          Items l = statuses.
Proof.
  intros Hc Ht Hd. unfold ValidateComponents, mbind, M_bind.
  rewrite (Get_run a rest ext _ _ s Hc), Ht; simpl. rewrite Hd.
  by eexists _, _.
Qed.

End DiscoveryProperties.

(** * The aggregate catalog *)

Section CatalogProperties.
Context `{!Collaborators}.

Implicit Types (c : Interface) (apis pre post : list string).
Implicit Types (result : gmap string (option unversioned_APIResourceList)).
Implicit Types (outs : list (option unversioned_APIResourceList * option error)).

(** The loop stops at the first fetch that returns an error, whatever
    the map holds by then. *)
Lemma SupportedResources_range_first_failure c pre :
  ∀ result (s s1 s2 : state) outs g post r e,
    fetch_each c pre s = Return outs s1 →
    Forall (λ o, o.2 = None) outs →
    Interface_SupportedResourcesForGroupVersion c g s1 = Return (r, Some e) s2 →
    SupportedResources_range c (pre ++ g :: post) result s = Return (None, Some e) s2.
Proof.
  induction pre as [|g0 pre IH]; intros result s s1 s2 outs g post r e Hpre Hok Hg.
  - injection Hpre as <- <-. simpl. unfold mbind, M_bind. by rewrite Hg.
  - simpl in Hpre |- *. unfold mbind, M_bind in Hpre |- *.
    destruct (Interface_SupportedResourcesForGroupVersion c g0 s) as [[r0 err0] s0|];
      [|done].
    destruct (fetch_each c pre s0) as [outs' s1'|] eqn:Hrest; [|done].
    injection Hpre as <- <-. apply Forall_cons in Hok as [Herr0 Hok].
    simpl in Herr0. subst err0. by eapply IH.
Qed.

(** A run of the loop that returns no error, or returns a map, has
    fetched every group-version left, each without error, and has put
    each result in the map; it returns both the map and no error. *)
Lemma SupportedResources_range_success c apis :
  ∀ result (s s' : state) cat (err : option error),
    SupportedResources_range c apis result s = Return (cat, err) s' →
    err = None ∨ is_Some cat →
    ∃ outs m,
      fetch_each c apis s = Return outs s' ∧
      length outs = length apis ∧
      Forall (λ o, o.2 = None) outs ∧
      err = None ∧ cat = Some m ∧
      dom m = dom result ∪ list_to_set apis ∧
      (∀ g, g ∉ apis → m !! g = result !! g) ∧
      (∀ i g o, apis !! i = Some g → outs !! i = Some o →
                g ∉ drop (S i) apis → m !! g = Some o.1).
Proof.
  induction apis as [|g0 apis IH]; intros result s s' cat err Hrun Hgood.
  - simpl in Hrun. inversion Hrun; subst. exists [], result.
    split; [done|]. split; [done|]. split; [constructor|]. split; [done|].
    split; [done|]. split; [simpl; by rewrite (right_id_L ∅ (∪))|].
    split; [done|]. intros i g o Hi. by destruct i.
  - simpl in Hrun |- *. unfold mbind, M_bind in Hrun |- *.
    destruct (Interface_SupportedResourcesForGroupVersion c g0 s) as [[r0 [e0|]] s0|];
      [| |done].
    { inversion Hrun; subst. destruct Hgood as [?|[? ?]]; done. }
    destruct (IH _ _ _ _ _ Hrun Hgood)
      as (outs & m & Hfetch & Hlen & Hok & -> & -> & Hdom & Hout & Hin).
    exists ((r0, None) :: outs), m. rewrite Hfetch.
    split; [done|]. split; [simpl; by rewrite Hlen|].
    split; [by constructor|]. split; [done|]. split; [done|].
    split.
    { rewrite Hdom, dom_insert_L. simpl.
      by rewrite (comm_L (∪) {[g0]} (dom result)), <- (assoc_L (∪)). }
    split.
    + intros g Hg. apply not_elem_of_cons in Hg as [Hne Hg].
      by rewrite (Hout g Hg), lookup_insert_ne.
    + intros [|i] g o Hi Ho Hlast; simpl in *.
      * injection Hi as ->. injection Ho as <-.
        by rewrite (Hout g Hlast), lookup_insert_eq.
      * by eapply Hin.
Qed.

(** When the listing fails, its error is returned with the nil map and
    no fetch is made. *)
Lemma SupportedResources_listing_error c (cfg : Config) (s s0 : state)
    (apis : list string) (e : error) :
  external (helper_ServerAPIVersions cfg) s = Return (apis, Some e) s0 →
  SupportedResources c cfg s = Return (None, Some e) s0.
Proof. intros Hlist. unfold SupportedResources, mbind, M_bind. by rewrite Hlist. Qed.

(** C1: when the listing gives [pre ++ g :: post], the fetches for
    [pre] return without error and the fetch for [g] returns the error
    [e], [SupportedResources] returns [e] and the nil map, in the state
    that fetch left: no fetch for [post] is made, and no entry is read
    from what is returned. *)
Theorem SupportedResources_all_or_nothing c (cfg : Config) pre (g : string) post
    (s s0 s1 s2 : state) outs (r : option unversioned_APIResourceList) (e : error) :
  external (helper_ServerAPIVersions cfg) s = Return ((pre ++ g :: post)%list, None) s0 →
  fetch_each c pre s0 = Return outs s1 →
  Forall (λ o, o.2 = None) outs →
  Interface_SupportedResourcesForGroupVersion c g s1 = Return (r, Some e) s2 →
  ∃ cat,
    SupportedResources c cfg s = Return (cat, Some e) s2 ∧
    cat = None ∧
    ∀ g', entries cat !! g' = None.
Proof.
  intros Hlist Hpre Hok Hg. exists None.
  split; [|done]. unfold SupportedResources, mbind, M_bind. rewrite Hlist.
  by eapply SupportedResources_range_first_failure.
Qed.

(** C4: when [SupportedResources] returns no error, or returns a map
    at all, it returns both: the listing returned a list [apis] without
    error, every group-version of [apis] was fetched, in order and
    without error, and the map returned has the listed group-versions as
    its keys, none missing and none added, each with the result of the
    fetch made for it (the last one, for a group-version listed more
    than once). *)
Theorem SupportedResources_complete c (cfg : Config) (s s' : state)
    (cat : option (gmap string (option unversioned_APIResourceList)))
    (err : option error) :
  SupportedResources c cfg s = Return (cat, err) s' →
  err = None ∨ is_Some cat →
  ∃ apis (s0 : state) outs m,
    external (helper_ServerAPIVersions cfg) s = Return (apis, None) s0 ∧
    fetch_each c apis s0 = Return outs s' ∧
    length outs = length apis ∧
    Forall (λ o, o.2 = None) outs ∧
    err = None ∧ cat = Some m ∧
    dom m = list_to_set apis ∧
    (∀ g, g ∈ apis ↔ is_Some (m !! g)) ∧
    (∀ i g o, apis !! i = Some g → outs !! i = Some o →
              g ∉ drop (S i) apis → m !! g = Some o.1).
Proof.
  unfold SupportedResources, mbind, M_bind. intros Hrun Hgood.
  destruct (external (helper_ServerAPIVersions cfg) s) as [[apis [e|]] s0|] eqn:Hlist;
    [| |done].
  { inversion Hrun; subst. destruct Hgood as [?|[? ?]]; done. }
  apply SupportedResources_range_success in Hrun
    as (outs & m & Hfetch & Hlen & Hok & -> & -> & Hdom & _ & Hin); [|done].
  rewrite dom_empty_L, (left_id_L ∅ (∪)) in Hdom.
  exists apis, s0, outs, m. repeat split; try done.
  - intros Hg. apply elem_of_dom. rewrite Hdom. by apply elem_of_list_to_set.
  - intros Hg. apply elem_of_dom in Hg. rewrite Hdom in Hg.
    by apply elem_of_list_to_set in Hg.
Qed.

End CatalogProperties.

(** * The properties on the test server *)

Lemma SupportedResourcesForGroupVersion_path_witness :
  ∃ r s',
    SupportedResourcesForGroupVersion Sample.client "v1" Sample.start = Return r s' ∧
    trace s' = [{| via := Some 0;
                   request := {| verb := "GET"; path := AbsPath ["/api"; "v1"] |};
                   run := Do_Raw |}].
Proof.
  destruct (SupportedResourcesForGroupVersion_path 2 (Some 0) (Some 1) "v1" Sample.start)
    as (r & s' & prefix & Hrun & Htrace & Hcore & _); [reflexivity|].
  exists r, s'. split; [exact Hrun|]. rewrite Htrace, (Hcore eq_refl). reflexivity.
Defined.

Lemma ValidateComponents_items_witness :
  ∃ l s',
    ValidateComponents Sample.client Sample.start = Return (Some l, None) s' ∧
    Items l = [Sample.etcd; Sample.scheduler].
Proof.
  apply (ValidateComponents_items 2 (Some 0) (Some 1) Sample.start Sample.validate_body 1);
    reflexivity.
Defined.

Lemma SupportedResources_all_or_nothing_witness :
  ∃ s2 cat,
    SupportedResources (Client_Interface Sample.client) ["v1"; "ext/v1"] Sample.start
      = Return (cat, Some Sample.not_found) s2 ∧
    cat = None ∧
    ∀ g', entries cat !! g' = None.
Proof.
  eexists.
  eapply (@SupportedResources_all_or_nothing Sample.collaborators
            (Client_Interface Sample.client)
            ["v1"; "ext/v1"] ["v1"] "ext/v1" [] Sample.start);
    [reflexivity | reflexivity | repeat constructor | reflexivity].
Defined.

Lemma SupportedResources_complete_witness :
  ∃ m s',
    SupportedResources (Client_Interface Sample.client) ["v1"; "extensions/v1beta1"]
      Sample.start = Return (Some m, None) s' ∧
    dom m = list_to_set ["v1"; "extensions/v1beta1"] ∧
    m !! "v1" = Some (Some Sample.v1_resources) ∧
    m !! "extensions/v1beta1" = Some (Some Sample.extensions_resources).
Proof.
  destruct (@SupportedResources_complete Sample.collaborators
              (Client_Interface Sample.client)
              ["v1"; "extensions/v1beta1"] Sample.start _ _ _ eq_refl (or_introl eq_refl))
    as (apis & s0 & outs & m & Hlist & Hfetch & _ & _ & _ & Hcat & Hdom & _ & Hin).
  vm_compute in Hlist. injection Hlist as <- <-.
  vm_compute in Hfetch. injection Hfetch as <-.
  exists m. eexists. split; [rewrite <- Hcat; reflexivity|].
  split; [exact Hdom|]. split.
  - apply (Hin 0 "v1" (Some Sample.v1_resources, None)); [reflexivity|reflexivity|].
    simpl. intros Hin'. apply list_elem_of_singleton in Hin'. discriminate.
  - apply (Hin 1 "extensions/v1beta1" (Some Sample.extensions_resources, None));
      [reflexivity|reflexivity|]. simpl. apply not_elem_of_nil.
Defined.

(** C2: on the test server, whose answer for [/apis/batch/v1] is the
    body [not json], [SupportedResourcesForGroupVersion] returns the
    parse failure alone; the message of the returned error does not
    contain the body. *)
Theorem SupportedResourcesForGroupVersion_omits_body :
  ∃ s',
    (transport (Some 0)
       {| verb := "GET"; path := AbsPath ["/apis"; "batch/v1"] |} Do_Raw 0).1
      = ("not json", None) ∧
    json_Unmarshal (T := unversioned_APIResourceList) "not json" = inr Sample.syntax_error ∧
    SupportedResourcesForGroupVersion Sample.client "batch/v1" Sample.start
      = Return (None, Some Sample.syntax_error) s' ∧
    Error Sample.syntax_error ≠ Error (fmt_Errorf_got "not json" Sample.syntax_error) ∧
    strings_Contains (Error Sample.syntax_error) "not json" = false.
Proof. eexists. repeat split; try reflexivity. discriminate. Qed.

(** * More on the string functions *)

Lemma string_app_assoc (a b c : string) : (a +:+ b) +:+ c = a +:+ b +:+ c.
Proof.
  induction a as [|x a IH]; [done|].
  change (String x ((a +:+ b) +:+ c) = String x (a +:+ b +:+ c)). by rewrite IH.
Qed.

Lemma string_app_empty_r (a : string) : a +:+ EmptyString = a.
Proof.
  induction a as [|x a IH]; [done|].
  change (String x (a +:+ EmptyString) = String x a). by rewrite IH.
Qed.

Lemma strings_Contains_middle (a b c : string) :
  strings_Contains (a +:+ b +:+ c) b = true.
Proof. apply strings_Contains_spec. by exists a, c. Qed.

Lemma strings_Contains_end (a b : string) : strings_Contains (a +:+ b) b = true.
Proof. apply strings_Contains_spec. exists a, EmptyString. by rewrite string_app_empty_r. Qed.

(** A text found in a part is found in the whole. *)
Lemma strings_Contains_app (a b c t : string) :
  strings_Contains b t = true → strings_Contains (a +:+ b +:+ c) t = true.
Proof.
  rewrite !strings_Contains_spec. intros (before & after & ->).
  exists (a +:+ before), (after +:+ c). by rewrite !string_app_assoc.
Qed.

(** * The operations side by side *)

Section OperationProperties.
Context `{!Collaborators}.

(** What an operation returns through a [*Client] that leads to a
    [Client], from what the transport answers to its request. *)
Lemma run_operation_run (op : operation) (a : nat) (rest ext : ptr) (s : state) :
  heap s !! a = Some (ClientStruct rest ext) →
  run_operation op (Some a) s =
    Return
      (let answer :=
         (transport rest (operation_request op).1 (operation_request op).2 (world s)).1 in
       match answer.2 with
       | Some e => (false, Some e)
       | None =>
           match operation_decode op answer.1 with
           | Some e =>
               (false, Some match op with
                            | SupportedResourcesForGroupVersion_ _ => e
                            | _ => fmt_Errorf_got answer.1 e
                            end)
           | None => (true, None)
           end
       end)
      {| heap := heap s;
         world :=
           (transport rest (operation_request op).1 (operation_request op).2 (world s)).2;
         trace := trace s ++ [operation_call rest op] |}.
Proof.
  intros Hc.
  destruct op as [| |g|]; unfold run_operation, operation_call, operation_decode;
    [unfold ServerVersion|unfold ServerAPIVersions
    |unfold SupportedResourcesForGroupVersion|unfold ValidateComponents];
    unfold mbind, M_bind; rewrite (Get_run a rest ext _ _ s Hc); simpl;
    destruct (transport _ _ _ _) as [[body [e|]] w]; simpl; try done;
    by destruct (json_Unmarshal body).
Qed.

(** X1: an error of the transport is returned as it is, with a nil
    value, whatever body came with it; the body is not decoded. *)
Theorem transport_error_propagated (op : operation) (a : nat) (rest ext : ptr)
    (s : state) (body : string) (e : error) (w : World) :
  heap s !! a = Some (ClientStruct rest ext) →
  transport rest (operation_request op).1 (operation_request op).2 (world s)
    = ((body, Some e), w) →
  ∃ s', run_operation op (Some a) s = Return (false, Some e) s' ∧ world s' = w.
Proof.
  intros Hc Ht. rewrite (run_operation_run op a rest ext s Hc), Ht. simpl.
  by eexists.
Qed.

(** X2: when the body does not decode, [ServerVersion],
    [ServerAPIVersions] and [ValidateComponents] return a nil value and
    an error whose message is [got '<body>': <parse failure>]; the
    message contains the body as it was received and the message of the
    parse failure. *)
Theorem decode_error_holds_body (op : operation) (a : nat) (rest ext : ptr)
    (s : state) (body : string) (e : error) (w : World) :
  heap s !! a = Some (ClientStruct rest ext) →
  (∀ g, op ≠ SupportedResourcesForGroupVersion_ g) →
  transport rest (operation_request op).1 (operation_request op).2 (world s)
    = ((body, None), w) →
  operation_decode op body = Some e →
  ∃ err s',
    run_operation op (Some a) s = Return (false, Some err) s' ∧
    Error err = "got '" +:+ body +:+ "': " +:+ Error e ∧
    strings_Contains (Error err) body = true ∧
    strings_Contains (Error err) (Error e) = true.
Proof.
  intros Hc Hop Ht Hd. rewrite (run_operation_run op a rest ext s Hc), Ht. simpl.
  rewrite Hd. exists (fmt_Errorf_got body e). eexists. split.
  - destruct op as [| |g|]; try done. by destruct (Hop g).
  - split; [done|]. split.
    + apply (strings_Contains_middle "got '").
    + rewrite fmt_Errorf_got_wraps, <- !string_app_assoc. apply strings_Contains_end.
Qed.

(** X3: an operation returns either a value or an error, never both
    and never neither; it returns a value exactly when the transport
    returned no error and the body decodes. *)
Theorem operation_value_xor_error (op : operation) (a : nat) (rest ext : ptr)
    (s : state) :
  heap s !! a = Some (ClientStruct rest ext) →
  ∃ b err s',
    run_operation op (Some a) s = Return (b, err) s' ∧
    (b = true ↔ err = None) ∧
    (err = None ↔
       (transport rest (operation_request op).1 (operation_request op).2 (world s)).1.2
         = None ∧
       operation_decode op
         (transport rest (operation_request op).1 (operation_request op).2 (world s)).1.1
         = None).
Proof.
  intros Hc. rewrite (run_operation_run op a rest ext s Hc).
  destruct (transport _ _ _ _) as [[body [e|]] w]; simpl.
  - eexists _, _, _. split; [reflexivity|]. intuition congruence.
  - destruct (operation_decode op body) as [e|];
      (eexists _, _, _; split; [reflexivity|]); intuition congruence.
Qed.

(** X4: whatever the outcome, an operation executes exactly one
    request, the one of its line in the source, and leaves the world as
    the transport left it: there is no second attempt. *)
Theorem operation_one_request (op : operation) (a : nat) (rest ext : ptr) (s : state) :
  heap s !! a = Some (ClientStruct rest ext) →
  ∃ r s',
    run_operation op (Some a) s = Return r s' ∧
    trace s' = (trace s ++ [operation_call rest op])%list ∧
    world s' =
      (transport rest (operation_request op).1 (operation_request op).2 (world s)).2.
Proof.
  intros Hc. rewrite (run_operation_run op a rest ext s Hc). by eexists _, _.
Qed.

End OperationProperties.

Section ValueProperties.
Context `{!Collaborators}.

(** X5: when the transport returns no error and the body decodes,
    [ServerVersion], [ServerAPIVersions] and
    [SupportedResourcesForGroupVersion] return the decoded value itself
    and a nil error. *)
Theorem decoded_value_returned (a : nat) (rest ext : ptr) (s : state) :
  heap s !! a = Some (ClientStruct rest ext) →
  (∀ body w info,
     transport rest (operation_request ServerVersion_).1 Do_Raw (world s)
       = ((body, None), w) →
     json_Unmarshal body = inl info →
     ∃ s', ServerVersion (Some a) s = Return (Some info, None) s') ∧
  (∀ body w v,
     transport rest (operation_request ServerAPIVersions_).1 Do_Raw (world s)
       = ((body, None), w) →
     json_Unmarshal body = inl v →
     ∃ s', ServerAPIVersions (Some a) s = Return (Some v, None) s') ∧
  (∀ g body w resources,
     transport rest (operation_request (SupportedResourcesForGroupVersion_ g)).1 Do_Raw
       (world s) = ((body, None), w) →
     json_Unmarshal body = inl resources →
     ∃ s', SupportedResourcesForGroupVersion (Some a) g s
             = Return (Some resources, None) s').
Proof.
  intros Hc. repeat split.
  - intros body w info Ht Hd. unfold ServerVersion, mbind, M_bind.
    simpl in Ht. rewrite (Get_run a rest ext _ _ s Hc), Ht; simpl. rewrite Hd.
    by eexists.
  - intros body w v Ht Hd. unfold ServerAPIVersions, mbind, M_bind.
    simpl in Ht. rewrite (Get_run a rest ext _ _ s Hc), Ht; simpl. rewrite Hd.
    by eexists.
  - intros g body w resources Ht Hd.
    unfold SupportedResourcesForGroupVersion, mbind, M_bind.
    simpl in Ht. rewrite (Get_run a rest ext _ _ s Hc), Ht; simpl. rewrite Hd.
    by eexists.
Qed.

End ValueProperties.

(** * More on the aggregate catalog *)

Section AggregationProperties.
Context `{!Collaborators}.

Implicit Types (c : Interface) (apis pre post issued : list string).
Implicit Types (result : gmap string (option unversioned_APIResourceList)).
Implicit Types (outs : list (option unversioned_APIResourceList * option error)).

(** A fetch through a [*Client] that leads to a [Client] returns, adds
    its request to the trace and leaves the heap as it was. *)
Lemma SupportedResourcesForGroupVersion_run (a : nat) (rest ext : ptr)
    (g : string) (s : state) :
  heap s !! a = Some (ClientStruct rest ext) →
  ∃ r (s1 : state),
    SupportedResourcesForGroupVersion (Some a) g s = Return r s1 ∧
    heap s1 = heap s ∧
    trace s1 = (trace s ++ [operation_call rest (SupportedResourcesForGroupVersion_ g)])%list ∧
    (∀ body e w,
       transport rest (operation_request (SupportedResourcesForGroupVersion_ g)).1
         Do_Raw (world s) = ((body, Some e), w) →
       r = (None, Some e)).
Proof.
  intros Hc. unfold SupportedResourcesForGroupVersion, mbind, M_bind.
  rewrite (Get_run a rest ext _ _ s Hc). simpl.
  destruct (transport _ _ _ _) as [[body [e|]] w]; simpl.
  - eexists _, _. split; [reflexivity|]. split; [done|]. split; [done|].
    intros ??? Heq. by inversion Heq.
  - destruct (json_Unmarshal body); (eexists _, _; split; [reflexivity|]); done.
Qed.

Lemma fetch_each_heap (a : nat) (rest ext : ptr) gvs :
  ∀ (s s' : state) outs,
    heap s !! a = Some (ClientStruct rest ext) →
    fetch_each (Client_Interface (Some a)) gvs s = Return outs s' →
    heap s' = heap s.
Proof.
  induction gvs as [|g gvs IH]; intros s s' outs Hc Hrun.
  - by inversion Hrun.
  - simpl in Hrun. unfold mbind, M_bind in Hrun.
    destruct (SupportedResourcesForGroupVersion_run a rest ext g s Hc)
      as (r & s1 & Hr & Hh & _).
    rewrite Hr in Hrun.
    destruct (fetch_each _ gvs _) as [outs' s2|] eqn:Hrest; [|done].
    inversion Hrun; subst. rewrite <- Hh in Hc |- *. by apply IH in Hrest.
Qed.



End AggregationProperties.

Section AggregationOutcomes.
Context `{!Collaborators}.

Implicit Types (c : Interface) (apis pre post : list string).
Implicit Types (result : gmap string (option unversioned_APIResourceList)).
Implicit Types (outs : list (option unversioned_APIResourceList * option error)).

Lemma SupportedResources_range_all_succeed c apis :
  ∀ result (s s' : state) outs,
    fetch_each c apis s = Return outs s' →
    Forall (λ o, o.2 = None) outs →
    ∃ m, SupportedResources_range c apis result s = Return (Some m, None) s'.
Proof.
  induction apis as [|g0 apis IH]; intros result s s' outs Hrun Hok.
  - inversion Hrun; subst. by exists result.
  - simpl in Hrun |- *. unfold mbind, M_bind in Hrun |- *.
    destruct (Interface_SupportedResourcesForGroupVersion c g0 s) as [[r0 err0] s0|];
      [|done].
    destruct (fetch_each c apis s0) as [outs' s1|] eqn:Hrest; [|done].
    inversion Hrun; subst. apply Forall_cons in Hok as [Herr0 Hok].
    simpl in Herr0. subst err0. by eapply IH.
Qed.

(** X7: when the listing returns no error and every fetch, made one
    after the other, returns no error, [SupportedResources] returns a
    map and no error, in the state the last fetch left; every listed
    group-version is a key of the map. *)
Theorem SupportedResources_succeeds c (cfg : Config) (s s0 s' : state) apis outs :
  external (helper_ServerAPIVersions cfg) s = Return (apis, None) s0 →
  fetch_each c apis s0 = Return outs s' →
  Forall (λ o, o.2 = None) outs →
  ∃ m,
    SupportedResources c cfg s = Return (Some m, None) s' ∧
    dom m = list_to_set apis ∧
    ∀ g, g ∈ apis → is_Some (m !! g).
Proof.
  intros Hlist Hfetch Hok.
  destruct (SupportedResources_range_all_succeed c apis ∅ s0 s' outs Hfetch Hok)
    as [m Hrun].
  exists m. unfold SupportedResources, mbind, M_bind. rewrite Hlist.
  split; [done|].
  apply SupportedResources_range_success in Hrun
    as (outs' & m' & _ & _ & _ & _ & Hm & Hdom & _); [|by left].
  injection Hm as <-. rewrite dom_empty_L, (left_id_L ∅ (∪)) in Hdom.
  split; [done|]. intros g Hg. apply elem_of_dom. rewrite Hdom.
  by apply elem_of_list_to_set.
Qed.

Lemma size_list_to_set_le (l : list string) :
  (size (list_to_set l : gset string) ≤ length l)%nat ∧
  (size (list_to_set l : gset string) = length l ↔ NoDup l).
Proof.
  induction l as [|x l [IHle IHeq]].
  - rewrite list_to_set_nil, size_empty. split; [done|]. split; [constructor|done].
  - rewrite list_to_set_cons. cbn [length].
    destruct (decide (x ∈ l)) as [Hin|Hnin].
    + assert (({[x]} ∪ list_to_set l : gset string) = list_to_set l) as ->.
      { apply subseteq_union_1_L, singleton_subseteq_l. by apply elem_of_list_to_set. }
      split; [lia|]. split; [lia|]. intros Hnd. by apply NoDup_cons in Hnd as [? _].
    + rewrite size_union, size_singleton.
      2:{ apply disjoint_singleton_l. by rewrite elem_of_list_to_set. }
      split; [lia|]. rewrite NoDup_cons. split.
      * intros Heq. split; [done|]. apply IHeq. lia.
      * intros [_ Hnd]. apply IHeq in Hnd. lia.
Qed.

(** X8: a returned map has at most as many entries as the listing has
    group-versions, and exactly as many if and only if no group-version
    is listed twice. *)
Theorem SupportedResources_size c (cfg : Config) (s s' : state)
    (m : gmap string (option unversioned_APIResourceList)) (err : option error) :
  SupportedResources c cfg s = Return (Some m, err) s' →
  ∃ apis (s0 : state),
    external (helper_ServerAPIVersions cfg) s = Return (apis, None) s0 ∧
    (size m ≤ length apis)%nat ∧
    (size m = length apis ↔ NoDup apis).
Proof.
  unfold SupportedResources, mbind, M_bind. intros Hrun.
  destruct (external (helper_ServerAPIVersions cfg) s) as [[apis [e|]] s0|] eqn:Hlist;
    [done| |done].
  apply SupportedResources_range_success in Hrun
    as (outs & m' & _ & _ & _ & _ & Hm & Hdom & _); [|by right].
  injection Hm as <-. rewrite dom_empty_L, (left_id_L ∅ (∪)) in Hdom.
  exists apis, s0. split; [done|].
  rewrite <- (size_dom m), Hdom. apply size_list_to_set_le.
Qed.

(** X9: on a [*Client] that leads to a [Client], when the fetches for
    the group-versions listed before [g] return no error and the
    transport answers the request for [g] with the error [e],
    [SupportedResources] returns [e] itself, as the transport gave it,
    and the nil map. *)
Theorem SupportedResources_transport_error (a : nat) (rest ext : ptr) (cfg : Config)
    (s s0 s1 : state) pre (g : string) post outs (body : string) (e : error)
    (w : World) :
  heap s !! a = Some (ClientStruct rest ext) →
  external (helper_ServerAPIVersions cfg) s = Return ((pre ++ g :: post)%list, None) s0 →
  fetch_each (Client_Interface (Some a)) pre s0 = Return outs s1 →
  Forall (λ o, o.2 = None) outs →
  transport rest (operation_request (SupportedResourcesForGroupVersion_ g)).1 Do_Raw
    (world s1) = ((body, Some e), w) →
  ∃ s2, SupportedResources (Client_Interface (Some a)) cfg s = Return (None, Some e) s2.
Proof.
  intros Hc Hlist Hpre Hok Ht.
  assert (heap s0 = heap s) as Hh0.
  { unfold external in Hlist. destruct (helper_ServerAPIVersions _ _).
    by inversion Hlist. }
  rewrite <- Hh0 in Hc.
  rewrite <- (fetch_each_heap a rest ext pre s0 s1 outs Hc Hpre) in Hc.
  destruct (SupportedResourcesForGroupVersion_run a rest ext g s1 Hc)
    as (r & s2 & Hr & _ & _ & Herr).
  rewrite (Herr body e w Ht) in Hr.
  exists s2. unfold SupportedResources, mbind, M_bind. rewrite Hlist.
  by eapply SupportedResources_range_first_failure.
Qed.

(** X10: on a nil [*Client] every operation, and [Extensions], panics,
    as the receiver is dereferenced.  [SupportedResources] with a nil
    [*Client] behind the interface returns the error of a failed
    listing, returns an empty map for an empty listing, and panics at
    the first fetch otherwise. *)
Theorem nil_Client_panics :
  (∀ op (s : state), run_operation op None s = Panic) ∧
  (∀ s : state, Extensions None s = Panic) ∧
  (∀ (cfg : Config) (s s0 : state) apis (lerr : option error),
     external (helper_ServerAPIVersions cfg) s = Return (apis, lerr) s0 →
     SupportedResources (Client_Interface None) cfg s =
       match lerr, apis with
       | Some e, _ => Return (None, Some e) s0
       | None, [] => Return (Some ∅, None) s0
       | None, _ :: _ => Panic
       end).
Proof.
  split; [by intros [| |g|] s|]. split; [done|].
  intros cfg s s0 apis lerr Hlist. unfold SupportedResources, mbind, M_bind.
  rewrite Hlist. by destruct lerr, apis.
Qed.

End AggregationOutcomes.

(** * More on the error classifier *)


Section ClassifiedOperations.
Context `{!Collaborators}.

(** X12: the error [ServerVersion], [ServerAPIVersions] and
    [ValidateComponents] return for a body that does not decode is
    classified by its text alone; when the body contains the
    closed-connection text, [IsTimeout] takes that error for a timeout. *)
Theorem decode_error_timeout (op : operation) (a : nat) (rest ext : ptr)
    (s : state) (body : string) (e : error) (w : World) :
  heap s !! a = Some (ClientStruct rest ext) →
  (∀ g, op ≠ SupportedResourcesForGroupVersion_ g) →
  transport rest (operation_request op).1 (operation_request op).2 (world s)
    = ((body, None), w) →
  operation_decode op body = Some e →
  strings_Contains body "use of closed network connection" = true →
  ∃ err s',
    run_operation op (Some a) s = Return (false, Some err) s' ∧
    IsTimeout (Some err) = true.
Proof.
  intros Hc Hop Ht Hd Hin. rewrite (run_operation_run op a rest ext s Hc), Ht. simpl.
  rewrite Hd. exists (fmt_Errorf_got body e). eexists. split.
  - destruct op as [| |g|]; try done. by destruct (Hop g).
  - unfold IsTimeout, fmt_Errorf_got. cbn [Error]. by apply strings_Contains_app.
Qed.

End ClassifiedOperations.

(** * The further properties on the scripted transport *)

Lemma transport_error_propagated_witness :
  ∃ s',
    @run_operation Canned.collaborators ServerVersion_ Canned.client
      (Canned.start [(EmptyString, Some Canned.dial_timeout)])
      = Return (false, Some Canned.dial_timeout) s' ∧
    world s' = [].
Proof.
  apply (@transport_error_propagated Canned.collaborators ServerVersion_
           2 (Some 0) (Some 1) _ EmptyString); reflexivity.
Defined.

Lemma decode_error_holds_body_witness :
  ∃ err s',
    @run_operation Canned.collaborators ValidateComponents_ Canned.client
      (Canned.start [("not json", None)]) = Return (false, Some err) s' ∧
    Error err = "got '" +:+ "not json" +:+ "': " +:+ Error Sample.syntax_error ∧
    strings_Contains (Error err) "not json" = true ∧
    strings_Contains (Error err) (Error Sample.syntax_error) = true.
Proof.
  apply (@decode_error_holds_body Canned.collaborators ValidateComponents_
           2 (Some 0) (Some 1) _ "not json" Sample.syntax_error []);
    [reflexivity | discriminate | reflexivity | reflexivity].
Defined.

Lemma operation_value_xor_error_witness :
  ∃ b err s',
    @run_operation Canned.collaborators ServerAPIVersions_ Canned.client
      (Canned.start [(Sample.root_body, None)]) = Return (b, err) s' ∧
    (b = true ↔ err = None).
Proof.
  destruct (@operation_value_xor_error Canned.collaborators ServerAPIVersions_
              2 (Some 0) (Some 1) (Canned.start [(Sample.root_body, None)]) eq_refl)
    as (b & err & s' & Hrun & Hxor & _).
  by exists b, err, s'.
Defined.

Lemma operation_one_request_witness :
  ∃ r s',
    @run_operation Canned.collaborators ValidateComponents_ Canned.client
      (Canned.start []) = Return r s' ∧
    trace s' = [{| via := Some 0;
                   request := {| verb := "GET"; path := AbsPath ["/validate"] |};
                   run := DoRaw |}].
Proof.
  destruct (@operation_one_request Canned.collaborators ValidateComponents_
              2 (Some 0) (Some 1) (Canned.start []) eq_refl)
    as (r & s' & Hrun & Htrace & _).
  by exists r, s'.
Defined.

Lemma decoded_value_returned_witness :
  ∃ s',
    @ServerVersion Canned.collaborators Canned.client
      (Canned.start [(Sample.version_body, None)])
    = Return (Some {| Sample.Major := "1"; Sample.Minor := "1" |}, None) s'.
Proof.
  apply (proj1 (@decoded_value_returned Canned.collaborators 2 (Some 0) (Some 1)
                  (Canned.start [(Sample.version_body, None)]) eq_refl)
           Sample.version_body []);
    reflexivity.
Defined.


Lemma SupportedResources_succeeds_witness :
  ∃ m s',
    SupportedResources (Client_Interface Sample.client) ["v1"; "extensions/v1beta1"]
      Sample.start = Return (Some m, None) s' ∧
    dom m = list_to_set ["v1"; "extensions/v1beta1"].
Proof.
  edestruct (@SupportedResources_succeeds Sample.collaborators
               (Client_Interface Sample.client) ["v1"; "extensions/v1beta1"]
               Sample.start) as (m & Hrun & Hdom & _);
    [reflexivity | reflexivity | repeat constructor |].
  by eexists _, _.
Defined.

Lemma SupportedResources_size_witness :
  ∃ apis s0,
    external (helper_ServerAPIVersions ["v1"; "v1"]) Sample.start
      = Return (apis, None) s0 ∧
    (size ({[ "v1" := Some Sample.v1_resources ]} : gmap string (option Sample.APIResourceList))
       ≤ length apis)%nat ∧
    (size ({[ "v1" := Some Sample.v1_resources ]} : gmap string (option Sample.APIResourceList))
       = length apis ↔ NoDup apis).
Proof.
  eapply (@SupportedResources_size Sample.collaborators (Client_Interface Sample.client)
            ["v1"; "v1"] Sample.start _ {[ "v1" := Some Sample.v1_resources ]} None).
  reflexivity.
Defined.

Lemma SupportedResources_transport_error_witness :
  (∃ s2,
     @SupportedResources Canned.collaborators (Client_Interface Canned.client)
       (["v1"; "ext/v1"], None)
       (Canned.start [(Sample.v1_body, None); (EmptyString, Some Canned.dial_timeout)])
     = Return (None, Some Canned.dial_timeout) s2) ∧
  IsTimeout (Some Canned.dial_timeout) = true.
Proof.
  split; [|reflexivity].
  eapply (@SupportedResources_transport_error Canned.collaborators 2 (Some 0) (Some 1)
            (["v1"; "ext/v1"], None) _ _ _ ["v1"] "ext/v1" [] _ EmptyString);
    [reflexivity | reflexivity | reflexivity | repeat constructor | reflexivity].
Defined.

Lemma nil_Client_panics_witness :
  SupportedResources (Client_Interface None) ["v1"] Sample.start = Panic.
Proof.
  eapply (proj2 (proj2 (@nil_Client_panics Sample.collaborators))
            ["v1"] Sample.start _ ["v1"] None).
  reflexivity.
Defined.


Lemma decode_error_timeout_witness :
  ∃ err s',
    @run_operation Canned.collaborators ServerVersion_ Canned.client
      (Canned.start [("use of closed network connection", None)])
      = Return (false, Some err) s' ∧
    IsTimeout (Some err) = true.
Proof.
  apply (@decode_error_timeout Canned.collaborators ServerVersion_ 2 (Some 0) (Some 1) _
           "use of closed network connection" Sample.syntax_error []);
    [reflexivity | discriminate | reflexivity | reflexivity | reflexivity].
Defined.
